(** * Shallow embedding of the ui-debugger FrameworkEventsInspector, the
    PowerSearchEnumTerm dropdown, the connectivity log row styling and the
    SandyApp shell of Flipper. *)

From Stdlib Require Import List Bool ZArith QArith Lia Permutation Sorting.Sorted.
From Stdlib Require Import Strings.String Strings.Ascii Numbers.DecimalString Numbers.DecimalZ.
Import ListNotations.

Open Scope nat_scope.
Open Scope string_scope.

(* ------------------------------------------------------------------ *)
(** ** JavaScript [Set]: an insertion-ordered collection without duplicates *)

Module JSSet.
Section JSSet.
Variable A : Type.
Variable eq_dec : forall x y : A, {x = y} + {x <> y}.

(** A [Set<A>] as the list of its elements in insertion order. *)
Definition t := list A.

Definition empty : t := [].

Definition size (s : t) : nat := List.length s.

Definition has (s : t) (x : A) : bool :=
  existsb (fun y => if eq_dec y x then true else false) s.

(** [Set.prototype.add]: appends only when absent. *)
Definition add (x : A) (s : t) : t :=
  if has s x then s else app s [x].

(** [Set.prototype.delete]. *)
Definition delete (x : A) (s : t) : t :=
  filter (fun y => if eq_dec y x then false else true) s.
End JSSet.
End JSSet.

Arguments JSSet.size {A} s.
Arguments JSSet.has {A} eq_dec s x.
Arguments JSSet.add {A} eq_dec x s.
Arguments JSSet.delete {A} eq_dec x s.

Definition opt_string_dec : forall x y : option string, {x = y} + {x <> y}.
Proof. decide equality; apply string_dec. Defined.

(* ------------------------------------------------------------------ *)
(** ** ClientTypes: [FrameworkEvent] (the fields the inspector reads) *)

Record FrameworkEvent := mkEvent {
  type : string;               (** [type: FrameworkEventType] *)
  thread : option string;      (** [thread?: string] *)
  timestamp : Z                (** [timestamp: number] (milliseconds) *)
}.

(* ------------------------------------------------------------------ *)
(** ** FrameworkEventsInspector, lines 65-73: [filteredEvents] *)

Definition filteredEvents (filteredEventTypes : JSSet.t string)
    (filteredThreads : JSSet.t (option string))
    (events : list FrameworkEvent) : list FrameworkEvent :=
  filter (fun event =>
            Nat.eqb (JSSet.size filteredThreads) 0
            || JSSet.has opt_string_dec filteredThreads (thread event))
    (filter (fun event =>
               Nat.eqb (JSSet.size filteredEventTypes) 0
               || JSSet.has string_dec filteredEventTypes (type event))
       events).

(* ------------------------------------------------------------------ *)
(** ** lodash [uniqBy] (baseUniq with an iteratee): keeps the first element
    of each iteratee value, tracking the values already seen. *)

Section UniqBy.
Variables (T K : Type).
Variable eq_dec : forall x y : K, {x = y} + {x <> y}.
Variable iteratee : T -> K.

Fixpoint uniqBy_go (seen : list K) (array : list T) : list T :=
  match array with
  | [] => []
  | value :: rest =>
      let computed := iteratee value in
      if in_dec eq_dec computed seen then uniqBy_go seen rest
      else value :: uniqBy_go (computed :: seen) rest
  end.

Definition uniqBy (array : list T) : list T := uniqBy_go [] array.
End UniqBy.

Arguments uniqBy {T K} eq_dec iteratee array.
Arguments uniqBy_go {T K} eq_dec iteratee seen array.

(** [uniqBy(events, 'thread').map((event) => event.thread)] *)
Definition allThreads (events : list FrameworkEvent) : list (option string) :=
  map thread (uniqBy opt_string_dec thread events).

(** [uniqBy(events, 'type').map((event) => event.type)] *)
Definition allEventTypes (events : list FrameworkEvent) : list string :=
  map type (uniqBy string_dec type events).

(* ------------------------------------------------------------------ *)
(** ** The dropdown items' [onSelect] state update (lines 111-121 and
    136-146): [produce(cur, draft => selected ? draft.add(v) : draft.delete(v))].
    Both dropdowns (threads and event types) use this same update. *)

Definition onSelectUpdate {A} (eq_dec : forall x y : A, {x = y} + {x <> y})
    (v : A) (selected : bool) (cur : JSSet.t A) : JSSet.t A :=
  if selected then JSSet.add eq_dec v cur else JSSet.delete eq_dec v cur.

(* ------------------------------------------------------------------ *)
(** ** Theme colours used by the inspector and the connectivity logs *)

Inductive ThemeColor := warningColor | primaryColor | errorColor.

(** [threadToColor(thread?: string)] *)
Definition threadToColor (thread : option string) : ThemeColor :=
  if opt_string_dec thread (Some "main") then warningColor else primaryColor.

(* ------------------------------------------------------------------ *)
(** ** String primitives: [String.prototype.lastIndexOf], [slice],
    [Number.prototype.toString] on integers and [padStart]. *)

(** [s.lastIndexOf(search)]: the greatest index at which [search] occurs
    in [s], or -1 (for an empty [search], the length of [s]). *)
Fixpoint lastIndexOf (s search : string) : Z :=
  match s with
  | EmptyString => if String.prefix search EmptyString then 0%Z else (-1)%Z
  | String _ rest =>
      let r := lastIndexOf rest search in
      if (0 <=? r)%Z then (r + 1)%Z
      else if String.prefix search s then 0%Z else (-1)%Z
  end.

Fixpoint drop (n : nat) (s : string) : string :=
  match n, s with
  | O, _ => s
  | S n', EmptyString => EmptyString
  | S n', String _ rest => drop n' rest
  end.

(** [s.slice(start)] *)
Definition slice (s : string) (start : Z) : string :=
  let len := Z.of_nat (String.length s) in
  let from := if (start <? 0)%Z then Z.max (len + start) 0 else Z.min start len in
  drop (Z.to_nat from) s.

(** [eventTypeToName]; the separator [frameworkEventSeparator] is imported
    from [FrameworkEventsTreeSelect], so it is a parameter here. *)
Definition eventTypeToName (frameworkEventSeparator : string) (eventType : string)
    : string :=
  slice eventType (lastIndexOf eventType frameworkEventSeparator + 1).

(** [Number.prototype.toString()] on an integer-valued number. *)
Definition numberToString (z : Z) : string :=
  NilEmpty.string_of_int (Z.to_int z).

Fixpoint repeatChar (n : nat) (c : ascii) : string :=
  match n with
  | O => EmptyString
  | S n' => String c (repeatChar n' c)
  end.

(** [s.padStart(targetLength, c)] with a one-character fill string. *)
Definition padStart (s : string) (targetLength : nat) (c : ascii) : string :=
  let len := String.length s in
  if Nat.leb targetLength len then s
  else repeatChar (targetLength - len) c ++ s.

(* ------------------------------------------------------------------ *)
(** ** The timeline passed to [TimelineDataDescription] (lines 187-197) *)

Record TimelineEntry := mkEntry {
  moment : Z;
  display : string;
  color : ThemeColor;
  key : string
}.

(** [idx.toString()] for an array index. *)
Definition indexToString (idx : nat) : string := numberToString (Z.of_nat idx).

Fixpoint timeline_from (sep : string) (idx : nat) (events : list FrameworkEvent)
    : list TimelineEntry :=
  match events with
  | [] => []
  | event :: rest =>
      mkEntry (timestamp event) (eventTypeToName sep (type event))
        (threadToColor (thread event)) (indexToString idx)
      :: timeline_from sep (S idx) rest
  end.

(** [filteredEvents.map((event, idx) => ({moment, display, color, key}))] *)
Definition timelineTime (sep : string) (filtered : list FrameworkEvent)
    : list TimelineEntry :=
  timeline_from sep 0 filtered.

(* ------------------------------------------------------------------ *)
(** ** [formatDuration] (lines 273-285).  [toFixed2] stands for
    [(x).toFixed(2)] applied to the double nearest to the exact quotient;
    since that double is a function of the exact quotient, [toFixed2] is a
    function of the rational [x].  The nanoseconds branch prints the
    integer itself. *)

Section FormatDuration.
Variable toFixed2 : Q -> string.

Definition formatDuration (nanoseconds : Z) : string :=
  if (nanoseconds <? 1000)%Z then
    numberToString nanoseconds ++ " nanoseconds"
  else if (nanoseconds <? 1000000)%Z then
    toFixed2 (inject_Z nanoseconds / inject_Z 1000)%Q ++ " microseconds"
  else if (nanoseconds <? 1000000000)%Z then
    toFixed2 (inject_Z nanoseconds / inject_Z 1000000)%Q ++ " milliseconds"
  else if (nanoseconds <? 1000000000000)%Z then
    toFixed2 (inject_Z nanoseconds / inject_Z 1000000000)%Q ++ " seconds"
  else
    toFixed2 (inject_Z nanoseconds / inject_Z (1000000000 * 60))%Q ++ " minutes".
End FormatDuration.

(* ------------------------------------------------------------------ *)
(** ** [formatTimestamp] (lines 258-271).

    [new Date(timestamp)] applies TimeClip: a time value outside
    [-8.64e15, 8.64e15] gives an invalid date, on which
    [Intl.DateTimeFormat.prototype.format] throws a RangeError ([None]).
    [intlFormat] is the locale formatting of a valid date (hour, minute,
    second, 24h) and [localTZA] the local time-zone offset in milliseconds;
    [getMilliseconds] is [msFromTime(LocalTime(t))], i.e. the local time
    modulo 1000. *)

Definition maxTimeValue : Z := 8640000000000000.

Definition msFromTime (t : Z) : Z := Z.modulo t 1000.

Section FormatTimestamp.
Variable intlFormat : Z -> string.
Variable localTZA : Z -> Z.

Definition newDate (timestamp : Z) : option Z :=
  if (Z.abs timestamp <=? maxTimeValue)%Z then Some timestamp else None.

Definition getMilliseconds (date : Z) : Z := msFromTime (date + localTZA date).

Definition formatTimestamp (timestamp : Z) : option string :=
  match newDate timestamp with
  | None => None
  | Some date =>
      let formattedDate := intlFormat date in
      let milliseconds := getMilliseconds date in
      Some (formattedDate ++ "." ++ padStart (numberToString milliseconds) 3 "0")
  end.
End FormatTimestamp.

(* ------------------------------------------------------------------ *)
(** ** Connectivity logs: [logTypes] and [getRowStyle] (part_000, 53-130) *)

Module ConnectivityLogs.

(** A row style: [theme.monospace] spread in, plus an optional colour. *)
Record CSSProperties := mkStyle {
  monospace : bool;
  styleColor : option ThemeColor
}.

Definition baseRowStyle : CSSProperties := mkStyle true None.

Record LogType := mkLogType {
  label : string;
  style : option CSSProperties;
  enabled : bool
}.

(** The object literal [logTypes], own properties in order. *)
Definition logTypes : list (string * LogType) :=
  [ ("log", mkLogType "Log" None true);
    ("cmd", mkLogType "Shell" (Some (mkStyle true (Some primaryColor))) true);
    ("error", mkLogType "Error" (Some (mkStyle true (Some errorColor))) true) ].

Record ConnectionRecordEntry := mkRecord {
  type : string;
  message : string
}.

Fixpoint lookupProp (k : string) (obj : list (string * LogType)) : option LogType :=
  match obj with
  | [] => None
  | (k', v) :: rest => if String.eqb k k' then Some v else lookupProp k rest
  end.

(** [logTypes[entry.type]?.style]: a missing own property reads
    [undefined]; members inherited from [Object.prototype] (functions,
    the prototype itself) have no [style] property either, so both give
    [undefined] here. *)
Definition logTypeStyle (k : string) : option CSSProperties :=
  match lookupProp k logTypes with
  | Some lt => style lt
  | None => None
  end.

(** [(logTypes[entry.type]?.style as any) ?? baseRowStyle] *)
Definition getRowStyle (entry : ConnectionRecordEntry) : CSSProperties :=
  match logTypeStyle (type entry) with
  | Some s => s
  | None => baseRowStyle
  end.

End ConnectivityLogs.

(* ------------------------------------------------------------------ *)
(** ** SandyApp: [leftMenuContent] (part_000, 298-303) *)

Inductive LeftMenuContent := AppInspect | Notification.

Definition leftMenuContent (leftSidebarVisible : bool)
    (topLevelSelection : option string) : option LeftMenuContent :=
  if negb leftSidebarVisible then None
  else if opt_string_dec topLevelSelection (Some "appinspect") then Some AppInspect
  else if opt_string_dec topLevelSelection (Some "notification") then Some Notification
  else None.

(* ------------------------------------------------------------------ *)
(** ** PowerSearchEnumTerm: [Object.entries(enumLabels).map(...)]

    A plain object [{[key: string]: string}] is the list of its own
    properties in creation order.  [Object.entries] enumerates them in
    OrdinaryOwnPropertyKeys order: the array-index keys (canonical decimal
    strings of integers below 2^32 - 1) in ascending numeric order, then the
    other string keys in creation order. *)

Module PowerSearch.

Definition digitValue (c : ascii) : option N :=
  let n := N_of_ascii c in
  if ((48 <=? n) && (n <=? 57))%N then Some (n - 48)%N else None.

Fixpoint parseDigits (s : string) (acc : N) : option N :=
  match s with
  | EmptyString => Some acc
  | String c rest =>
      match digitValue c with
      | Some d => parseDigits rest (acc * 10 + d)%N
      | None => None
      end
  end.

(** The numeric value of a decimal key ([0] for the others). *)
Definition keyValue (k : string) : N :=
  match parseDigits k 0 with Some n => n | None => 0%N end.

Definition isArrayIndex (k : string) : bool :=
  match k with
  | EmptyString => false
  | String c rest =>
      if Ascii.eqb c "0" then String.eqb rest EmptyString
      else match parseDigits k 0 with
           | Some n => (n <? 4294967295)%N
           | None => false
           end
  end.

Fixpoint insertByIndex (p : string * string) (l : list (string * string))
    : list (string * string) :=
  match l with
  | [] => [p]
  | q :: rest =>
      if (keyValue (fst p) <=? keyValue (fst q))%N then p :: q :: rest
      else q :: insertByIndex p rest
  end.

Fixpoint sortByIndex (l : list (string * string)) : list (string * string) :=
  match l with
  | [] => []
  | p :: rest => insertByIndex p (sortByIndex rest)
  end.

Definition Object_entries (obj : list (string * string)) : list (string * string) :=
  sortByIndex (filter (fun p => isArrayIndex (fst p)) obj)
  ++ filter (fun p => negb (isArrayIndex (fst p))) obj.

Record SelectOption := mkOption { label : string; value : string }.

(** [Object.entries(enumLabels).map(([key, label]) => ({label, value: key}))] *)
Definition options (enumLabels : list (string * string)) : list SelectOption :=
  map (fun '(k, l) => mkOption l k) (Object_entries enumLabels).

End PowerSearch.

(* ------------------------------------------------------------------ *)
(** ** Vocabulary of the specification *)

(** The index of the first occurrence of [k] in [l] ([length l] when absent). *)
Fixpoint firstIndex {K} (eq_dec : forall x y : K, {x = y} + {x <> y})
    (k : K) (l : list K) : nat :=
  match l with
  | [] => 0
  | x :: rest => if eq_dec x k then 0 else S (firstIndex eq_dec k rest)
  end.

(* ------------------------------------------------------------------ *)
(** ** The timeline's [onClick] (lines 175-186):
    [const idx = parseInt(current, 10); const event = filteredEvents[idx];] *)

(** JS white space among the 8-bit characters: TAB, LF, VT, FF, CR, SPACE, NBSP. *)
Definition isJSWhiteSpace (c : ascii) : bool :=
  let n := nat_of_ascii c in
  (((9 <=? n) && (n <=? 13)) || (n =? 32) || (n =? 160))%nat.

Definition isDecimalDigit (c : ascii) : bool :=
  let n := nat_of_ascii c in ((48 <=? n) && (n <=? 57))%nat.

Fixpoint trimStart (s : string) : string :=
  match s with
  | String c rest => if isJSWhiteSpace c then trimStart rest else s
  | EmptyString => EmptyString
  end.

Fixpoint takeDigits (s : string) : string :=
  match s with
  | String c rest => if isDecimalDigit c then String c (takeDigits rest) else EmptyString
  | EmptyString => EmptyString
  end.

(** The value of a non-empty string of decimal digits. *)
Definition digitsValue (digits : string) : Z :=
  match NilEmpty.uint_of_string digits with
  | Some u => Z.of_uint u
  | None => 0%Z
  end.

(** The optional sign in front of the digits. *)
Definition splitSign (s : string) : Z * string :=
  match s with
  | String "-" rest => ((-1)%Z, rest)
  | String "+" rest => (1%Z, rest)
  | _ => (1%Z, s)
  end.

(** [parseInt(s, 10)]: leading white space, an optional sign, then the
    longest run of decimal digits; [None] stands for [NaN]. *)
Definition parseInt10 (s : string) : option Z :=
  let '(sign, body) := splitSign (trimStart s) in
  match takeDigits body with
  | EmptyString => None
  | digits => Some (sign * digitsValue digits)%Z
  end.

(** [filteredEvents[idx]]: [undefined] ([None]) for NaN, negative or
    out-of-range indices. *)
Definition arrayIndex {T} (arr : list T) (idx : option Z) : option T :=
  match idx with
  | Some z => if (0 <=? z)%Z then nth_error arr (Z.to_nat z) else None
  | None => None
  end.

(** The event whose details the timeline's [onClick] shows for the clicked
    entry key [current]. *)
Definition onClickEvent (filtered : list FrameworkEvent) (current : string)
    : option FrameworkEvent :=
  arrayIndex filtered (parseInt10 current).

(* ------------------------------------------------------------------ *)
(** ** The event-type dropdown label (line 150):
    [last(eventType.split('.'))] *)

(** [s.split(sep)] for a one-character separator. *)
Fixpoint splitChar (sep : ascii) (s : string) : list string :=
  match s with
  | EmptyString => [EmptyString]
  | String c rest =>
      let parts := splitChar sep rest in
      if ascii_dec c sep then EmptyString :: parts
      else match parts with
           | p :: ps => String c p :: ps
           | [] => [String c EmptyString]
           end
  end.

(** lodash [last]: the last element, [undefined] for an empty array. *)
Fixpoint lodashLast {T} (l : list T) : option T :=
  match l with
  | [] => None
  | [x] => Some x
  | _ :: rest => lodashLast rest
  end.

Definition eventTypeLabel (eventType : string) : option string :=
  lodashLast (splitChar "." eventType).

(* ------------------------------------------------------------------ *)
(** ** Dropdown sections (lines 106 and 131): a section is rendered only
    when there is more than one value to filter by. *)

Definition showThreadSection (events : list FrameworkEvent) : bool :=
  (1 <? List.length (allThreads events))%nat.

Definition showEventTypeSection (events : list FrameworkEvent) : bool :=
  (1 <? List.length (allEventTypes events))%nat.

(* ------------------------------------------------------------------ *)
(** ** [EventDetails] (lines 203-256): which description rows and panels
    are rendered.  The optional fields of [FrameworkEvent] read here are
    kept beside the event: [duration?: number] (an integer number of
    nanoseconds), the keys of [payload?] and the [type] of [attribution?]. *)

Record EventDetailsInput := mkDetailsInput {
  event : FrameworkEvent;
  duration : option Z;
  payloadKeys : option (list string);
  attributionType : option string
}.

Inductive DetailsRow :=
  | RowEventType
  | RowDocumentation
  | RowThread
  | RowTimestamp
  | RowDuration
  | RowAttributes.

(** JS truthiness of [event.duration]: [undefined] and [0] are falsy. *)
Definition durationTruthy (d : option Z) : bool :=
  match d with Some z => negb (Z.eqb z 0) | None => false end.

Definition eventDetailsRows (hasMetadata : bool) (input : EventDetailsInput)
    : list DetailsRow :=
  [RowEventType]
  ++ (if hasMetadata then [RowDocumentation] else [])
  ++ [RowThread; RowTimestamp]
  ++ (if durationTruthy (duration input) then [RowDuration] else [])
  ++ (match payloadKeys input with
      | Some ks => if (0 <? List.length ks)%nat then [RowAttributes] else []
      | None => []
      end).

(** [event?.attribution?.type === 'stacktrace'] *)
Definition showsStackTrace (input : EventDetailsInput) : bool :=
  if opt_string_dec (attributionType input) (Some "stacktrace") then true else false.

(* ------------------------------------------------------------------ *)
(** ** PowerSearchEnumTerm's event handlers (lines 323-346).  The state is
    [selectValueRef.current]; each handler's calls to the props are its
    outputs.  Enter and Escape blur the focused select, which runs
    [onBlur]. *)

Module EnumTerm.

Inductive UIEvent :=
  | Select (value : string)
  | Blur
  | KeyDown (key : string).

Inductive Output := Change (value : string) | Cancel.

(** [onBlur]: [if (!selectValueRef.current) onCancel()]; the empty string
    is falsy like [undefined]. *)
Definition onBlur (current : option string) : list Output :=
  match current with
  | None => [Cancel]
  | Some v => if String.eqb v "" then [Cancel] else []
  end.

Definition handle (current : option string) (e : UIEvent) : option string * list Output :=
  match e with
  | Select v => (Some v, [Change v])
  | Blur => (current, onBlur current)
  | KeyDown k =>
      if String.eqb k "Enter" || String.eqb k "Escape" then (current, onBlur current)
      else (current, [])
  end.

Fixpoint run (current : option string) (es : list UIEvent) : option string * list Output :=
  match es with
  | [] => (current, [])
  | e :: rest =>
      let '(current', out) := handle current e in
      let '(final, out') := run current' rest in
      (final, app out out')
  end.

(** The values handed to [onChange], in order. *)
Fixpoint changes (outs : list Output) : list string :=
  match outs with
  | [] => []
  | Change v :: rest => v :: changes rest
  | Cancel :: rest => changes rest
  end.

Fixpoint selections (es : list UIEvent) : list string :=
  match es with
  | [] => []
  | Select v :: rest => v :: selections rest
  | _ :: rest => selections rest
  end.

End EnumTerm.

(* ------------------------------------------------------------------ *)
(** ** SandyApp: the left sidebar (part_000, 316-322) *)

Module Sandy.

(** [{leftMenuContent && <TrackingScope scope={topLevelSelection!}>...}] *)
Definition sidebarChildren (leftSidebarVisible : bool) (topLevelSelection : option string)
    : option (string * LeftMenuContent) :=
  match leftMenuContent leftSidebarVisible topLevelSelection with
  | Some content =>
      match topLevelSelection with
      | Some scope => Some (scope, content)
      | None => None
      end
  | None => None
  end.

End Sandy.


(** The duration format as claim C2 words it: nanoseconds below 10^3, then
    microseconds, milliseconds, seconds below 10^12, minutes otherwise; the
    scaled value fixed to two decimals in all but the first branch. *)
Definition formatDuration_claimed (toFixed2 : Q -> string) (n : Z) : string :=
  if (n <? 10^3)%Z then numberToString n ++ " nanoseconds"
  else if ((10^3 <=? n) && (n <? 10^6))%Z then
    toFixed2 (inject_Z n / inject_Z (10^3))%Q ++ " microseconds"
  else if ((10^6 <=? n) && (n <? 10^9))%Z then
    toFixed2 (inject_Z n / inject_Z (10^6))%Q ++ " milliseconds"
  else if ((10^9 <=? n) && (n <? 10^12))%Z then
    toFixed2 (inject_Z n / inject_Z (10^9))%Q ++ " seconds"
  else toFixed2 (inject_Z n / inject_Z (60 * 10^9))%Q ++ " minutes".

(** The decimal digit character of [d] (for [0 <= d <= 9]). *)
Definition digitChar (d : Z) : ascii := ascii_of_nat (48 + Z.to_nat d).

(** [m] (for [0 <= m < 1000]) written with exactly three decimal digits,
    zero-padded on the left. *)
Definition threeDigits (m : Z) : string :=
  String (digitChar (m / 100))
    (String (digitChar ((m / 10) mod 10))
       (String (digitChar (m mod 10)) EmptyString)).

(** Checks the three-digit padding of every millisecond value. *)
Definition pad3_check : bool :=
  forallb (fun n => String.eqb (padStart (numberToString (Z.of_nat n)) 3 "0")
                               (threeDigits (Z.of_nat n)))
          (seq 0 1000).

(* ================================================================== *)
(** * Properties *)

(** ** Sanity checks on concrete inputs *)

Example numberToString_0 : numberToString 0 = "0".
Proof. reflexivity. Qed.

Example numberToString_7 : padStart (numberToString 7) 3 "0" = "007".
Proof. reflexivity. Qed.

Example eventTypeToName_dotted :
  eventTypeToName "." "litho.layout.mount" = "mount".
Proof. reflexivity. Qed.

Example eventTypeToName_plain : eventTypeToName "." "mount" = "mount".
Proof. reflexivity. Qed.

Example object_entries_order :
  PowerSearch.Object_entries [("b", "B"); ("10", "X"); ("a", "A"); ("2", "Y"); ("01", "Z")]
  = [("2", "Y"); ("10", "X"); ("b", "B"); ("a", "A"); ("01", "Z")].
Proof. reflexivity. Qed.

Example uniq_threads :
  allThreads [mkEvent "a" (Some "main") 0; mkEvent "b" None 1;
              mkEvent "c" (Some "main") 2; mkEvent "d" (Some "bg") 3; mkEvent "e" None 4]
  = [Some "main"; None; Some "bg"].
Proof. reflexivity. Qed.

(** ** JavaScript sets *)

Section JSSetFacts.
Context {A : Type} (eq_dec : forall x y : A, {x = y} + {x <> y}).

Lemma has_In (s : JSSet.t A) (x : A) : JSSet.has eq_dec s x = true <-> In x s.
Proof.
  unfold JSSet.has. rewrite existsb_exists. split.
  - intros [y [Hy Heq]]. destruct (eq_dec y x); [subst; assumption | discriminate].
  - intros Hx. exists x. split; [assumption|]. destruct (eq_dec x x); congruence.
Qed.

Lemma size_zero (s : JSSet.t A) : Nat.eqb (JSSet.size s) 0 = true <-> s = [].
Proof.
  unfold JSSet.size. rewrite Nat.eqb_eq. split.
  - apply length_zero_iff_nil.
  - intros ->. reflexivity.
Qed.

Lemma add_In (v x : A) (s : JSSet.t A) :
  In x (JSSet.add eq_dec v s) <-> In x s \/ x = v.
Proof.
  unfold JSSet.add. destruct (JSSet.has eq_dec s v) eqn:Hv.
  - apply has_In in Hv. split; [tauto|]. intros [H|H]; [assumption|subst; assumption].
  - rewrite in_app_iff. simpl. split; intros [H|H]; intuition.
Qed.

Lemma delete_In (v x : A) (s : JSSet.t A) :
  In x (JSSet.delete eq_dec v s) <-> In x s /\ x <> v.
Proof.
  unfold JSSet.delete. rewrite filter_In.
  destruct (eq_dec x v); split; intros H; intuition; discriminate.
Qed.

Lemma delete_notin (v : A) (s : JSSet.t A) :
  ~ In v s -> JSSet.delete eq_dec v s = s.
Proof.
  induction s as [|y s IH]; intros Hv; simpl; [reflexivity|].
  destruct (eq_dec y v) as [->|Hne].
  - exfalso. apply Hv. left. reflexivity.
  - f_equal. apply IH. intros H. apply Hv. right. exact H.
Qed.
End JSSetFacts.

(** ** Filtering helper *)

Lemma filter_filter_andb {T} (f g : T -> bool) (l : list T) :
  filter f (filter g l) = filter (fun x => g x && f x) l.
Proof.
  induction l as [|x l IH]; simpl; [reflexivity|].
  destruct (g x); simpl; [destruct (f x); simpl; rewrite IH|rewrite IH]; reflexivity.
Qed.

(** ** lodash [uniqBy] *)

Lemma StronglySorted_weaken {K} (P : K -> Prop) (R R' : K -> K -> Prop) (l : list K) :
  Forall P l -> (forall a b, P a -> P b -> R a b -> R' a b) ->
  StronglySorted R l -> StronglySorted R' l.
Proof.
  intros HP HR HS. induction HS as [|x l HS IH HF]; constructor.
  - apply IH. inversion HP; assumption.
  - inversion HP as [|? ? Px Pl]; subst.
    rewrite Forall_forall in *. intros y Hy. apply HR; auto.
Qed.

Lemma StronglySorted_nth_error {K} (R : K -> K -> Prop) (l : list K) :
  StronglySorted R l ->
  forall i j a b, i < j -> nth_error l i = Some a -> nth_error l j = Some b -> R a b.
Proof.
  induction 1 as [|x l HS IH HF]; intros i j a b Hij Hi Hj.
  - destruct i; discriminate.
  - destruct j as [|j]; [lia|]. destruct i as [|i].
    + simpl in Hi, Hj. injection Hi as <-. rewrite Forall_forall in HF.
      apply HF. eapply nth_error_In. exact Hj.
    + simpl in Hi, Hj. apply (IH i j); [lia|assumption|assumption].
Qed.

Section UniqByFacts.
Context {T K : Type} (eq_dec : forall x y : K, {x = y} + {x <> y}) (iteratee : T -> K).

Lemma uniqBy_go_spec (seen : list K) (l : list T) :
  let r := map iteratee (uniqBy_go eq_dec iteratee seen l) in
  NoDup r /\
  (forall k, In k r <-> In k (map iteratee l) /\ ~ In k seen) /\
  StronglySorted
    (fun a b => firstIndex eq_dec a (map iteratee l) < firstIndex eq_dec b (map iteratee l)) r.
Proof.
  revert seen. induction l as [|v rest IH]; intros seen r; subst r; simpl.
  - split; [constructor|]. split; [intros k; simpl; tauto|constructor].
  - destruct (in_dec eq_dec (iteratee v) seen) as [Hin|Hnin].
    + destruct (IH seen) as (Hnd & Hmem & Hsort). split; [exact Hnd|]. split.
      * intros k. rewrite Hmem. simpl. split; [tauto|].
        intros [[Hk|Hk] Hs]; [subst; contradiction|auto].
      * eapply StronglySorted_weaken with (P := fun k => ~ In k seen); [| |exact Hsort].
        -- rewrite Forall_forall. intros k Hk. apply Hmem in Hk. tauto.
        -- intros a b Ha Hb Hab. cbv beta in Hab. simpl.
           destruct (eq_dec (iteratee v) a); [subst; contradiction|].
           destruct (eq_dec (iteratee v) b); [subst; contradiction|]. lia.
    + destruct (IH (iteratee v :: seen)) as (Hnd & Hmem & Hsort). simpl. split.
      * constructor; [|exact Hnd]. intros H. apply Hmem in H. simpl in H. tauto.
      * split.
        -- intros k. split.
           ++ intros [Hk|Hk]; [subst; tauto|]. apply Hmem in Hk. simpl in Hk. tauto.
           ++ intros [[Hk|Hk] Hs]; [left; exact Hk|].
              destruct (eq_dec (iteratee v) k) as [->|Hne]; [left; reflexivity|].
              right. apply Hmem. simpl. split; [exact Hk|]. intros [H|H]; contradiction.
        -- constructor.
           ++ eapply StronglySorted_weaken
                with (P := fun k => ~ In k (iteratee v :: seen)); [| |exact Hsort].
              ** rewrite Forall_forall. intros k Hk. apply Hmem in Hk. tauto.
              ** intros a b Ha Hb Hab. cbv beta in Hab. simpl.
                 destruct (eq_dec (iteratee v) a); [subst; simpl in Ha; tauto|].
                 destruct (eq_dec (iteratee v) b); [subst; simpl in Hb; tauto|]. lia.
           ++ rewrite Forall_forall. intros k Hk. apply Hmem in Hk. simpl.
              destruct (eq_dec (iteratee v) k) as [Heq|]; [exfalso; apply (proj2 Hk); left; exact Heq|].
              destruct (eq_dec (iteratee v) (iteratee v)); [lia|contradiction].
Qed.

Lemma uniqBy_distinct_first_order (l : list T) :
  let r := map iteratee (uniqBy eq_dec iteratee l) in
  NoDup r /\
  (forall k, In k r <-> In k (map iteratee l)) /\
  (forall i j a b, i < j -> nth_error r i = Some a -> nth_error r j = Some b ->
     firstIndex eq_dec a (map iteratee l) < firstIndex eq_dec b (map iteratee l)).
Proof.
  intros r. destruct (uniqBy_go_spec [] l) as (Hnd & Hmem & Hsort). split; [exact Hnd|].
  split.
  - intros k. unfold r, uniqBy. rewrite Hmem. simpl. tauto.
  - apply StronglySorted_nth_error. exact Hsort.
Qed.
End UniqByFacts.

(** ** C1: [filteredEvents] is the order-preserving filter by both sets *)

(** Claim C1: the filtered list keeps exactly the events whose type is in
    [filteredEventTypes] (or that set is empty) and whose thread is in
    [filteredThreads] (or that set is empty); it is a filter of the input
    list, so the relative order of the kept events is preserved. *)
Theorem filteredEvents_correct (filteredEventTypes : JSSet.t string)
    (filteredThreads : JSSet.t (option string)) (events : list FrameworkEvent) :
  (exists keep : FrameworkEvent -> bool,
     filteredEvents filteredEventTypes filteredThreads events = filter keep events /\
     forall e, keep e = true <->
       (filteredEventTypes = [] \/ In (type e) filteredEventTypes) /\
       (filteredThreads = [] \/ In (thread e) filteredThreads)) /\
  (forall e, In e (filteredEvents filteredEventTypes filteredThreads events) <->
     In e events /\
     (filteredEventTypes = [] \/ In (type e) filteredEventTypes) /\
     (filteredThreads = [] \/ In (thread e) filteredThreads)).
Proof.
  set (keep := fun event : FrameworkEvent =>
         (Nat.eqb (JSSet.size filteredEventTypes) 0
          || JSSet.has string_dec filteredEventTypes (type event)) &&
         (Nat.eqb (JSSet.size filteredThreads) 0
          || JSSet.has opt_string_dec filteredThreads (thread event))).
  assert (Hkeep : forall e, keep e = true <->
       (filteredEventTypes = [] \/ In (type e) filteredEventTypes) /\
       (filteredThreads = [] \/ In (thread e) filteredThreads)).
  { intros e. unfold keep. rewrite andb_true_iff, !orb_true_iff, !size_zero, !has_In.
    reflexivity. }
  assert (Heq : filteredEvents filteredEventTypes filteredThreads events = filter keep events).
  { unfold filteredEvents. rewrite filter_filter_andb. reflexivity. }
  split.
  - exists keep. split; assumption.
  - intros e. rewrite Heq, filter_In, Hkeep. reflexivity.
Qed.

(** ** C4: the dropdown [onSelect] update *)

(** Claim C4: for any filter set (threads or event types, both updated by
    [onSelectUpdate]) and any value [v], selecting adds [v], deselecting
    removes [v], and selecting then deselecting a value not in the set gives
    back the same set (also the same insertion order). *)
Theorem onSelectUpdate_add_delete {A} (eq_dec : forall x y : A, {x = y} + {x <> y})
    (v : A) (cur : JSSet.t A) :
  (forall x, In x (onSelectUpdate eq_dec v true cur) <-> In x cur \/ x = v) /\
  (forall x, In x (onSelectUpdate eq_dec v false cur) <-> In x cur /\ x <> v) /\
  (~ In v cur ->
   onSelectUpdate eq_dec v false (onSelectUpdate eq_dec v true cur) = cur).
Proof.
  split; [|split].
  - intros x. apply add_In.
  - intros x. apply delete_In.
  - intros Hv. simpl. unfold JSSet.add.
    destruct (JSSet.has eq_dec cur v) eqn:Hhas.
    + apply has_In in Hhas. contradiction.
    + unfold JSSet.delete. rewrite filter_app. simpl.
      destruct (eq_dec v v) as [_|]; [|contradiction]. rewrite app_nil_r.
      apply delete_notin. exact Hv.
Qed.

Lemma onSelectUpdate_add_delete_witness :
  ~ In (Some "bg") [Some "main"] /\
  onSelectUpdate opt_string_dec (Some "bg") false
    (onSelectUpdate opt_string_dec (Some "bg") true [Some "main"]) = [Some "main"].
Proof.
  assert (H : ~ In (Some "bg") [Some "main"]) by (simpl; intros [H|H]; [discriminate|exact H]).
  split.
  - simpl. intros [H'|H']; [discriminate|exact H'].
  - exact (proj2 (proj2 (onSelectUpdate_add_delete opt_string_dec (Some "bg") [Some "main"])) H).
Defined.

(** ** C10: [allThreads] and [allEventTypes] *)

(** Claim C10: [allThreads] (resp. [allEventTypes]) lists every thread
    (resp. type) value occurring in the events, each exactly once, ordered by
    the position of its first occurrence in the events. *)
Theorem allThreads_allEventTypes_distinct (events : list FrameworkEvent) :
  (NoDup (allThreads events) /\
   (forall t, In t (allThreads events) <-> In t (map thread events)) /\
   (forall i j a b, i < j ->
      nth_error (allThreads events) i = Some a ->
      nth_error (allThreads events) j = Some b ->
      firstIndex opt_string_dec a (map thread events)
      < firstIndex opt_string_dec b (map thread events))) /\
  (NoDup (allEventTypes events) /\
   (forall t, In t (allEventTypes events) <-> In t (map type events)) /\
   (forall i j a b, i < j ->
      nth_error (allEventTypes events) i = Some a ->
      nth_error (allEventTypes events) j = Some b ->
      firstIndex string_dec a (map type events)
      < firstIndex string_dec b (map type events))).
Proof.
  split; [apply (uniqBy_distinct_first_order opt_string_dec thread)
         |apply (uniqBy_distinct_first_order string_dec type)].
Qed.

Lemma allThreads_allEventTypes_distinct_witness :
  let events := [mkEvent "a" (Some "main") 0; mkEvent "b" None 1;
                 mkEvent "c" (Some "main") 2] in
  0 < 1 /\ nth_error (allThreads events) 0 = Some (Some "main") /\
  nth_error (allThreads events) 1 = Some None /\
  firstIndex opt_string_dec (Some "main") (map thread events)
  < firstIndex opt_string_dec None (map thread events).
Proof.
  intros events.
  assert (H0 : nth_error (allThreads events) 0 = Some (Some "main")) by reflexivity.
  assert (H1 : nth_error (allThreads events) 1 = Some None) by reflexivity.
  split; [lia|]. split; [exact H0|]. split; [exact H1|].
  exact (proj2 (proj2 (proj1 (allThreads_allEventTypes_distinct events)))
           0 1 (Some "main") None ltac:(lia) H0 H1).
Defined.

(** ** C3: the timeline built from the filtered events *)

Lemma timeline_from_combine (sep : string) (n : nat) (l : list FrameworkEvent) :
  timeline_from sep n l =
  map (fun '(i, e) => mkEntry (timestamp e) (eventTypeToName sep (type e))
                        (threadToColor (thread e)) (indexToString i))
      (combine (seq n (List.length l)) l).
Proof.
  revert n. induction l as [|e l IH]; intros n; simpl; [reflexivity|].
  rewrite IH. reflexivity.
Qed.

(** Claim C3: the timeline has one entry per filtered event, in order; the
    entry at index [i] has the event's timestamp as [moment],
    [eventTypeToName] of its type as [display], [threadToColor] of its thread
    as [color] and the decimal string of [i] as [key]. *)
Theorem timeline_entries (frameworkEventSeparator : string)
    (filtered : list FrameworkEvent) :
  List.length (timelineTime frameworkEventSeparator filtered) = List.length filtered /\
  timelineTime frameworkEventSeparator filtered =
  map (fun '(i, e) =>
         {| moment := timestamp e;
            display := eventTypeToName frameworkEventSeparator (type e);
            color := threadToColor (thread e);
            key := indexToString i |})
      (combine (seq 0 (List.length filtered)) filtered).
Proof.
  unfold timelineTime. rewrite timeline_from_combine. split; [|reflexivity].
  rewrite length_map, length_combine, length_seq. apply Nat.min_id.
Qed.

Example indexToString_12 : indexToString 12 = "12".
Proof. reflexivity. Qed.

(** ** C7: the SandyApp left menu *)

(** Claim C7: the left menu shows AppInspect exactly when the sidebar is
    visible and the selection is ['appinspect'], Notification exactly when
    it is visible and the selection is ['notification'], and nothing in
    every other state (in particular whenever the sidebar is hidden). *)
Theorem leftMenuContent_cases (leftSidebarVisible : bool)
    (topLevelSelection : option string) :
  (leftMenuContent leftSidebarVisible topLevelSelection = Some AppInspect <->
     leftSidebarVisible = true /\ topLevelSelection = Some "appinspect") /\
  (leftMenuContent leftSidebarVisible topLevelSelection = Some Notification <->
     leftSidebarVisible = true /\ topLevelSelection = Some "notification") /\
  (leftMenuContent leftSidebarVisible topLevelSelection = None <->
     leftSidebarVisible = false \/
     (topLevelSelection <> Some "appinspect" /\ topLevelSelection <> Some "notification")).
Proof.
  unfold leftMenuContent.
  destruct leftSidebarVisible; simpl.
  - destruct (opt_string_dec topLevelSelection (Some "appinspect")) as [Ha|Ha];
      [|destruct (opt_string_dec topLevelSelection (Some "notification")) as [Hn|Hn]];
      subst; intuition congruence.
  - intuition congruence.
Qed.

(** ** C5: connectivity log row styles *)

(** Claim C5: a row gets the style registered in [logTypes] for its type
    when that entry has a style, and the monospace [baseRowStyle] otherwise;
    rows of type ['log'] and rows of a type not listed in [logTypes] get the
    base style. *)
Theorem getRowStyle_cases (entry : ConnectivityLogs.ConnectionRecordEntry) :
  (forall lt s,
     ConnectivityLogs.lookupProp (ConnectivityLogs.type entry) ConnectivityLogs.logTypes
       = Some lt ->
     ConnectivityLogs.style lt = Some s ->
     ConnectivityLogs.getRowStyle entry = s) /\
  ((ConnectivityLogs.lookupProp (ConnectivityLogs.type entry) ConnectivityLogs.logTypes
      = None \/
    exists lt,
      ConnectivityLogs.lookupProp (ConnectivityLogs.type entry) ConnectivityLogs.logTypes
        = Some lt /\ ConnectivityLogs.style lt = None) ->
   ConnectivityLogs.getRowStyle entry = ConnectivityLogs.baseRowStyle) /\
  (ConnectivityLogs.type entry = "log" ->
   ConnectivityLogs.getRowStyle entry = ConnectivityLogs.baseRowStyle) /\
  (~ In (ConnectivityLogs.type entry) (map fst ConnectivityLogs.logTypes) ->
   ConnectivityLogs.getRowStyle entry = ConnectivityLogs.baseRowStyle).
Proof.
  unfold ConnectivityLogs.getRowStyle, ConnectivityLogs.logTypeStyle.
  split; [|split; [|split]].
  - intros lt s -> ->. reflexivity.
  - intros [-> | [lt [-> ->]]]; reflexivity.
  - intros ->. reflexivity.
  - intros Hnot. simpl in Hnot. unfold ConnectivityLogs.logTypes; simpl.
    destruct (String.eqb_spec (ConnectivityLogs.type entry) "log") as [H|_];
      [exfalso; apply Hnot; left; symmetry; exact H|].
    destruct (String.eqb_spec (ConnectivityLogs.type entry) "cmd") as [H|_];
      [exfalso; apply Hnot; right; left; symmetry; exact H|].
    destruct (String.eqb_spec (ConnectivityLogs.type entry) "error") as [H|_];
      [exfalso; apply Hnot; right; right; left; symmetry; exact H|].
    reflexivity.
Qed.

Example getRowStyle_cmd :
  ConnectivityLogs.getRowStyle (ConnectivityLogs.mkRecord "cmd" "adb devices")
  = ConnectivityLogs.mkStyle true (Some primaryColor).
Proof. reflexivity. Qed.

Example getRowStyle_error :
  ConnectivityLogs.getRowStyle (ConnectivityLogs.mkRecord "error" "failed")
  = ConnectivityLogs.mkStyle true (Some errorColor).
Proof. reflexivity. Qed.

(** ** C2: [formatDuration] *)

(** Claim C2: for every number of nanoseconds (in particular every
    non-negative integer), [formatDuration] picks the unit by the ranges
    [< 10^3], [< 10^6], [< 10^9], [< 10^12] and otherwise minutes, divides by
    10^3, 10^6, 10^9 or 60 * 10^9, and fixes the scaled value to two decimals
    in every branch but the nanoseconds one. *)
Theorem formatDuration_branches (toFixed2 : Q -> string) (n : Z) :
  formatDuration toFixed2 n = formatDuration_claimed toFixed2 n.
Proof.
  unfold formatDuration, formatDuration_claimed.
  change (10^3)%Z with 1000%Z. change (10^6)%Z with 1000000%Z.
  change (10^9)%Z with 1000000000%Z. change (10^12)%Z with 1000000000000%Z.
  change (60 * 1000000000)%Z with (1000000000 * 60)%Z.
  destruct (Z.ltb_spec n 1000); [reflexivity|].
  destruct (Z.leb_spec 1000 n); [|lia]. simpl.
  destruct (Z.ltb_spec n 1000000); [reflexivity|].
  destruct (Z.leb_spec 1000000 n); [|lia]. simpl.
  destruct (Z.ltb_spec n 1000000000); [reflexivity|].
  destruct (Z.leb_spec 1000000000 n); [|lia]. simpl.
  destruct (Z.ltb_spec n 1000000000000); reflexivity.
Qed.

(** ** C8: [eventTypeToName] with a one-character separator *)

Lemma string_length_append (s1 s2 : string) :
  String.length (s1 ++ s2) = String.length s1 + String.length s2.
Proof. induction s1 as [|a s1 IH]; simpl; [reflexivity|rewrite IH; reflexivity]. Qed.

Lemma drop_append (s1 s2 : string) : drop (String.length s1) (s1 ++ s2) = s2.
Proof. induction s1 as [|a s1 IH]; simpl; [destruct s2; reflexivity|exact IH]. Qed.

Lemma lastIndexOf_absent (c : ascii) (s : string) :
  ~ In c (list_ascii_of_string s) -> lastIndexOf s (String c EmptyString) = (-1)%Z.
Proof.
  induction s as [|d s IH]; intros Hc; simpl; [reflexivity|].
  simpl in Hc. rewrite IH by tauto. simpl.
  destruct (ascii_dec c d) as [->|]; [exfalso; apply Hc; left; reflexivity|reflexivity].
Qed.

Lemma lastIndexOf_last (c : ascii) (pre post : string) :
  ~ In c (list_ascii_of_string post) ->
  lastIndexOf (pre ++ String c post) (String c EmptyString) = Z.of_nat (String.length pre).
Proof.
  intros Hc. induction pre as [|d pre IH]; simpl.
  - rewrite lastIndexOf_absent by exact Hc. simpl.
    destruct (ascii_dec c c); [destruct post; reflexivity|contradiction].
  - rewrite IH. destruct (Z.leb_spec 0 (Z.of_nat (String.length pre))); [lia|lia].
Qed.

(** Claim C8 (for a one-character [frameworkEventSeparator], as the
    dropdown labels in the same file split types on ['.']): a type without
    the separator is returned whole, since [lastIndexOf] gives -1 and the
    slice starts at 0; a type that contains it yields the text strictly
    after its last occurrence. *)
Theorem eventTypeToName_separator (c : ascii) (eventType pre post : string) :
  (~ In c (list_ascii_of_string eventType) ->
   lastIndexOf eventType (String c EmptyString) = (-1)%Z /\
   eventTypeToName (String c EmptyString) eventType = eventType) /\
  (~ In c (list_ascii_of_string post) ->
   eventTypeToName (String c EmptyString) (pre ++ String c post) = post).
Proof.
  split.
  - intros Hc. pose proof (lastIndexOf_absent c eventType Hc) as H. split; [exact H|].
    unfold eventTypeToName, slice. rewrite H. simpl.
    rewrite Z.min_l by lia. reflexivity.
  - intros Hc. unfold eventTypeToName, slice. rewrite lastIndexOf_last by exact Hc.
    rewrite string_length_append. simpl.
    destruct (Z.ltb_spec (Z.of_nat (String.length pre) + 1) 0); [lia|].
    rewrite Z.min_l by lia.
    replace (Z.to_nat (Z.of_nat (String.length pre) + 1)) with (S (String.length pre)) by lia.
    clear. induction pre as [|a pre IH]; simpl; [reflexivity|exact IH].
Qed.

(** With a longer separator the slice would keep its tail characters. *)
Example eventTypeToName_two_char_separator : eventTypeToName "::" "a::b" = ":b".
Proof. reflexivity. Qed.

(** ** C9: the PowerSearchEnumTerm options *)

Lemma insertByIndex_perm (p : string * string) (l : list (string * string)) :
  Permutation (PowerSearch.insertByIndex p l) (p :: l).
Proof.
  induction l as [|q l IH]; simpl; [reflexivity|].
  destruct (_ <=? _)%N; [reflexivity|].
  rewrite IH. apply perm_swap.
Qed.

Lemma sortByIndex_perm (l : list (string * string)) :
  Permutation (PowerSearch.sortByIndex l) l.
Proof.
  induction l as [|p l IH]; simpl; [reflexivity|].
  rewrite insertByIndex_perm, IH. reflexivity.
Qed.

Lemma filter_negb_perm {T} (f : T -> bool) (l : list T) :
  Permutation (filter f l ++ filter (fun x => negb (f x)) l) l.
Proof.
  induction l as [|x l IH]; simpl; [reflexivity|].
  destruct (f x); simpl.
  - apply perm_skip. exact IH.
  - rewrite <- Permutation_middle. apply perm_skip. exact IH.
Qed.

Lemma Object_entries_perm (obj : list (string * string)) :
  Permutation (PowerSearch.Object_entries obj) obj.
Proof.
  unfold PowerSearch.Object_entries. rewrite sortByIndex_perm. apply filter_negb_perm.
Qed.

(** Claim C9: the options are, in [Object.entries] enumeration order, the
    pairs (key as [value], label as [label]) of the object's own properties,
    and these are exactly the object's properties, each once: none added,
    dropped or relabelled. *)
Theorem options_entries (enumLabels : list (string * string)) :
  map (fun o => (PowerSearch.value o, PowerSearch.label o)) (PowerSearch.options enumLabels)
  = PowerSearch.Object_entries enumLabels /\
  Permutation
    (map (fun o => (PowerSearch.value o, PowerSearch.label o)) (PowerSearch.options enumLabels))
    enumLabels.
Proof.
  assert (H : map (fun o => (PowerSearch.value o, PowerSearch.label o))
                (PowerSearch.options enumLabels) = PowerSearch.Object_entries enumLabels).
  { unfold PowerSearch.options. rewrite map_map.
    erewrite map_ext; [apply map_id|]. intros [k l]. reflexivity. }
  split; [exact H|]. rewrite H. apply Object_entries_perm.
Qed.

(** ** C6: [formatTimestamp] *)

Lemma pad3_check_true : pad3_check = true.
Proof. vm_compute. reflexivity. Qed.

Lemma padStart_threeDigits (m : Z) :
  (0 <= m < 1000)%Z -> padStart (numberToString m) 3 "0" = threeDigits m.
Proof.
  intros Hm. pose proof pad3_check_true as H. unfold pad3_check in H.
  rewrite forallb_forall in H.
  specialize (H (Z.to_nat m)). rewrite Z2Nat.id in H by lia.
  apply String.eqb_eq. apply H. apply in_seq. lia.
Qed.

Lemma getMilliseconds_mod (localTZA : Z -> Z)
    (HTZ : forall t, (localTZA t mod 1000 = 0)%Z) (t : Z) :
  getMilliseconds localTZA t = (t mod 1000)%Z.
Proof.
  unfold getMilliseconds, msFromTime.
  rewrite Z.add_mod by lia. rewrite HTZ, Z.add_0_r. apply Z.mod_mod. lia.
Qed.

(** Claim C6 as stated fails outside the range of JavaScript dates:
    [new Date(8640000000000001)] is an invalid date and formatting it throws
    a RangeError, so no string is returned. *)
Lemma formatTimestamp_out_of_range :
  formatTimestamp (fun _ => "0:00:00") (fun _ => 0%Z) (maxTimeValue + 1) = None.
Proof. reflexivity. Qed.

(** Claim C6, amended: when the local time-zone offset is a whole number of
    seconds, for every integer timestamp [t] with [|t| <= 8.64e15] the
    result is the formatted date, a dot and the three digits of [t mod 1000]
    zero-padded on the left; outside that range no string is returned (the
    formatting throws). *)
Theorem formatTimestamp_millis (intlFormat : Z -> string) (localTZA : Z -> Z)
    (HTZ : forall t, (localTZA t mod 1000 = 0)%Z) (timestamp : Z) :
  ((Z.abs timestamp <= maxTimeValue)%Z ->
   formatTimestamp intlFormat localTZA timestamp =
   Some (intlFormat timestamp ++ "." ++ threeDigits (timestamp mod 1000))) /\
  ((maxTimeValue < Z.abs timestamp)%Z ->
   formatTimestamp intlFormat localTZA timestamp = None).
Proof.
  unfold formatTimestamp, newDate. split; intros Hr.
  - destruct (Z.leb_spec (Z.abs timestamp) maxTimeValue); [|lia].
    rewrite getMilliseconds_mod by exact HTZ.
    rewrite padStart_threeDigits; [reflexivity|].
    apply Z.mod_pos_bound. lia.
  - destruct (Z.leb_spec (Z.abs timestamp) maxTimeValue); [lia|reflexivity].
Qed.

Lemma formatTimestamp_millis_witness :
  (forall t : Z, ((fun _ : Z => 3600000%Z) t mod 1000 = 0)%Z) /\
  formatTimestamp (fun _ => "13:45:07") (fun _ => 3600000%Z) 1697463907042%Z
  = Some ("13:45:07" ++ "." ++ "042").
Proof.
  assert (HTZ : forall t : Z, ((fun _ : Z => 3600000%Z) t mod 1000 = 0)%Z)
    by (intros t; reflexivity).
  split; [exact HTZ|].
  rewrite (proj1 (formatTimestamp_millis (fun _ => "13:45:07") (fun _ => 3600000%Z)
                    HTZ 1697463907042%Z) ltac:(unfold maxTimeValue; lia)).
  reflexivity.
Defined.

(* ================================================================== *)
(** * Further properties of the code *)

(** ** The timeline's [onClick] finds the clicked event *)

Lemma takeDigits_uint (u : Decimal.uint) :
  takeDigits (NilEmpty.string_of_uint u) = NilEmpty.string_of_uint u.
Proof. induction u; simpl; try rewrite IHu; reflexivity. Qed.

Lemma parseInt10_uint (u : Decimal.uint) :
  u <> Decimal.Nil -> parseInt10 (NilEmpty.string_of_uint u) = Some (Z.of_uint u).
Proof.
  intros Hu. unfold parseInt10.
  assert (Htrim : trimStart (NilEmpty.string_of_uint u) = NilEmpty.string_of_uint u)
    by (destruct u; [contradiction|reflexivity..]).
  assert (Hsign : splitSign (NilEmpty.string_of_uint u) = (1%Z, NilEmpty.string_of_uint u))
    by (destruct u; [contradiction|reflexivity..]).
  rewrite Htrim, Hsign, takeDigits_uint.
  destruct (NilEmpty.string_of_uint u) as [|c s] eqn:E.
  - destruct u; [contradiction|discriminate..].
  - rewrite <- E. unfold digitsValue. rewrite NilEmpty.usu. f_equal. lia.
Qed.

Lemma parseInt10_numberToString (z : Z) :
  (0 <= z)%Z -> parseInt10 (numberToString z) = Some z.
Proof.
  intros Hz. destruct z as [|p|p]; [reflexivity| |lia].
  unfold numberToString. simpl.
  assert (Hof : Z.of_uint (Pos.to_uint p) = Z.pos p).
  { change (Z.of_uint (Pos.to_uint p)) with (Z.of_int (Z.to_int (Z.pos p))).
    apply DecimalZ.of_to. }
  rewrite parseInt10_uint; [exact (f_equal Some Hof)|].
  intros H. rewrite H in Hof. discriminate.
Qed.

Lemma timeline_from_nth (sep : string) (n i : nat) (l : list FrameworkEvent)
    (entry : TimelineEntry) :
  nth_error (timeline_from sep n l) i = Some entry ->
  exists e, nth_error l i = Some e /\ key entry = indexToString (n + i) /\
            moment entry = timestamp e.
Proof.
  revert n i. induction l as [|e l IH]; intros n i H; [destruct i; discriminate|].
  destruct i as [|i]; simpl in H.
  - injection H as <-. exists e. rewrite Nat.add_0_r. repeat split.
  - destruct (IH (S n) i H) as (e' & He & Hk & Hm). exists e'.
    rewrite <- Nat.add_succ_comm. split; [exact He|]. split; assumption.
Qed.

(** Clicking the timeline entry at index [i] shows the details of the
    [i]-th filtered event: [parseInt] of the entry's key gives back [i]. *)
Theorem timeline_onClick_event (sep : string) (filtered : list FrameworkEvent)
    (i : nat) (entry : TimelineEntry) :
  nth_error (timelineTime sep filtered) i = Some entry ->
  exists e, onClickEvent filtered (key entry) = Some e /\
            nth_error filtered i = Some e /\ moment entry = timestamp e.
Proof.
  intros H. destruct (timeline_from_nth sep 0 i filtered entry H) as (e & He & Hk & Hm).
  exists e. split; [|split; assumption].
  unfold onClickEvent. rewrite Hk. simpl. unfold indexToString.
  rewrite parseInt10_numberToString by lia. unfold arrayIndex.
  destruct (Z.leb_spec 0 (Z.of_nat i)); [|lia]. rewrite Nat2Z.id. exact He.
Qed.

Lemma timeline_onClick_event_witness :
  let filtered := [mkEvent "a.b" (Some "main") 5; mkEvent "c" None 9] in
  nth_error (timelineTime "." filtered) 1 = Some (mkEntry 9 "c" primaryColor "1") /\
  exists e, onClickEvent filtered "1" = Some e /\
            nth_error filtered 1 = Some e /\ moment (mkEntry 9 "c" primaryColor "1") = timestamp e.
Proof.
  intros filtered.
  assert (H : nth_error (timelineTime "." filtered) 1 = Some (mkEntry 9 "c" primaryColor "1"))
    by reflexivity.
  split; [exact H|].
  exact (timeline_onClick_event "." filtered 1 _ H).
Defined.

(** ** Event names: the dropdown label and [eventTypeToName] *)

Lemma last_separator_split (c : ascii) (s : string) :
  ~ In c (list_ascii_of_string s) \/
  exists pre post, s = pre ++ String c post /\ ~ In c (list_ascii_of_string post).
Proof.
  induction s as [|d s IH]; [left; simpl; tauto|].
  destruct IH as [Hno | (pre & post & -> & Hpost)].
  - destruct (ascii_dec d c) as [->|Hne].
    + right. exists EmptyString, s. split; [reflexivity|exact Hno].
    + left. simpl. intros [H|H]; [congruence|contradiction].
  - right. exists (String d pre), post. split; [reflexivity|exact Hpost].
Qed.

Lemma eventTypeToName_absent (c : ascii) (s : string) :
  ~ In c (list_ascii_of_string s) -> eventTypeToName (String c EmptyString) s = s.
Proof.
  intros Hc. unfold eventTypeToName, slice. rewrite lastIndexOf_absent by exact Hc.
  simpl. rewrite Z.min_l by lia. reflexivity.
Qed.

Lemma eventTypeToName_after (c : ascii) (pre post : string) :
  ~ In c (list_ascii_of_string post) ->
  eventTypeToName (String c EmptyString) (pre ++ String c post) = post.
Proof.
  intros Hc. unfold eventTypeToName, slice. rewrite lastIndexOf_last by exact Hc.
  rewrite string_length_append. simpl.
  destruct (Z.ltb_spec (Z.of_nat (String.length pre) + 1) 0); [lia|].
  rewrite Z.min_l by lia.
  replace (Z.to_nat (Z.of_nat (String.length pre) + 1)) with (S (String.length pre)) by lia.
  clear. induction pre as [|a pre IH]; simpl; [reflexivity|exact IH].
Qed.

Lemma splitChar_absent (c : ascii) (s : string) :
  ~ In c (list_ascii_of_string s) -> splitChar c s = [s].
Proof.
  induction s as [|d s IH]; intros Hc; [reflexivity|]. simpl in *.
  rewrite IH by tauto. destruct (ascii_dec d c); [subst; tauto|reflexivity].
Qed.

Lemma splitChar_app (c : ascii) (pre post : string) :
  exists x init, splitChar c (pre ++ String c post) = x :: app init (splitChar c post).
Proof.
  induction pre as [|d pre IH]; simpl.
  - destruct (ascii_dec c c); [|contradiction]. exists EmptyString, []. reflexivity.
  - destruct IH as (x & init & ->). destruct (ascii_dec d c).
    + exists EmptyString, (x :: init). reflexivity.
    + exists (String d x), init. reflexivity.
Qed.

Lemma lodashLast_snoc {T} (l : list T) (x : T) : lodashLast (app l [x]) = Some x.
Proof.
  induction l as [|a l IH]; [reflexivity|]. destruct l; [reflexivity|exact IH].
Qed.

(** The event-type dropdown label [last(eventType.split('.'))] is always
    defined and equals the timeline's [eventTypeToName] when the framework
    event separator is ['.'] (more generally, for splitting and
    [eventTypeToName] on the same one-character separator). *)
Theorem eventTypeLabel_eq_eventTypeToName (c : ascii) (eventType : string) :
  lodashLast (splitChar c eventType) = Some (eventTypeToName (String c EmptyString) eventType) /\
  eventTypeLabel eventType = Some (eventTypeToName "." eventType).
Proof.
  assert (G : forall c s, lodashLast (splitChar c s) = Some (eventTypeToName (String c EmptyString) s)).
  { clear. intros c s. destruct (last_separator_split c s) as [Hno | (pre & post & -> & Hpost)].
    - rewrite splitChar_absent, eventTypeToName_absent by exact Hno. reflexivity.
    - rewrite eventTypeToName_after by exact Hpost.
      destruct (splitChar_app c pre post) as (x & init & ->).
      rewrite splitChar_absent by exact Hpost. change (x :: app init [post]) with (app (x :: init) [post]).
      apply lodashLast_snoc. }
  split; [apply G|apply (G "."%char)].
Qed.

(** With a one-character separator, [eventTypeToName] returns a suffix of
    the event type that never contains the separator. *)
Theorem eventTypeToName_suffix (c : ascii) (eventType : string) :
  exists pre, eventType = pre ++ eventTypeToName (String c EmptyString) eventType /\
  ~ In c (list_ascii_of_string (eventTypeToName (String c EmptyString) eventType)).
Proof.
  destruct (last_separator_split c eventType) as [Hno | (pre & post & -> & Hpost)].
  - rewrite eventTypeToName_absent by exact Hno. exists EmptyString. split; [reflexivity|exact Hno].
  - rewrite eventTypeToName_after by exact Hpost. exists (pre ++ String c EmptyString).
    split; [|exact Hpost]. clear. induction pre as [|a pre IH]; simpl; [reflexivity|].
    rewrite <- IH. reflexivity.
Qed.

(** ** The filter sets *)

(** Repeating a dropdown selection (or deselection) changes nothing more,
    and the filter sets never hold a value twice. *)
Theorem onSelectUpdate_idempotent_nodup {A} (eq_dec : forall x y : A, {x = y} + {x <> y})
    (v : A) (selected : bool) (cur : JSSet.t A) :
  onSelectUpdate eq_dec v selected (onSelectUpdate eq_dec v selected cur)
  = onSelectUpdate eq_dec v selected cur /\
  (NoDup cur -> NoDup (onSelectUpdate eq_dec v selected cur)).
Proof.
  destruct selected; simpl; split.
  - unfold JSSet.add at 1. destruct (JSSet.has eq_dec (JSSet.add eq_dec v cur) v) eqn:H;
      [reflexivity|].
    exfalso. assert (Hin : In v (JSSet.add eq_dec v cur)) by (apply add_In; right; reflexivity).
    apply (proj2 (has_In eq_dec _ v)) in Hin. congruence.
  - intros Hnd. unfold JSSet.add. destruct (JSSet.has eq_dec cur v) eqn:H; [exact Hnd|].
    apply NoDup_app; [exact Hnd|constructor; [simpl; tauto|constructor]|].
    intros x Hx [Hy|[]]. rewrite <- Hy in Hx. assert (Hc : JSSet.has eq_dec cur v = true) by (apply (proj2 (has_In eq_dec cur v)); exact Hx).
    congruence.
  - apply delete_notin. intros H. apply delete_In in H. tauto.
  - intros Hnd. apply NoDup_filter. exact Hnd.
Qed.

Lemma onSelectUpdate_idempotent_nodup_witness :
  NoDup ["a"; "b"] /\
  NoDup (onSelectUpdate string_dec "c" true ["a"; "b"]).
Proof.
  assert (H : NoDup ["a"; "b"]).
  { constructor; [simpl; intros [H|[]]; discriminate|constructor; [simpl; tauto|constructor]]. }
  split; [exact H|].
  exact (proj2 (onSelectUpdate_idempotent_nodup string_dec "c" true ["a"; "b"]) H).
Defined.

Lemma filteredEvents_In (types : JSSet.t string) (threads : JSSet.t (option string))
    (events : list FrameworkEvent) (e : FrameworkEvent) :
  In e (filteredEvents types threads events) <->
  In e events /\ (types = [] \/ In (type e) types) /\ (threads = [] \/ In (thread e) threads).
Proof.
  unfold filteredEvents. rewrite !filter_In, !orb_true_iff, !size_zero, !has_In. tauto.
Qed.

(** Once a filter set is non-empty, selecting one more value in it never
    hides an event, and deselecting a value that leaves it non-empty never
    shows a new one. *)
Theorem filteredEvents_select_monotone (types : JSSet.t string)
    (threads : JSSet.t (option string)) (events : list FrameworkEvent)
    (t : string) (th : option string) :
  (types <> [] ->
   incl (filteredEvents types threads events)
        (filteredEvents (onSelectUpdate string_dec t true types) threads events)) /\
  (threads <> [] ->
   incl (filteredEvents types threads events)
        (filteredEvents types (onSelectUpdate opt_string_dec th true threads) events)) /\
  (onSelectUpdate string_dec t false types <> [] ->
   incl (filteredEvents (onSelectUpdate string_dec t false types) threads events)
        (filteredEvents types threads events)) /\
  (onSelectUpdate opt_string_dec th false threads <> [] ->
   incl (filteredEvents types (onSelectUpdate opt_string_dec th false threads) events)
        (filteredEvents types threads events)).
Proof.
  simpl. split; [|split; [|split]]; intros Hne e He; rewrite filteredEvents_In in *;
    rewrite ?add_In, ?delete_In in *.
  - destruct He as (He & [H|H] & Hth); [contradiction|]. repeat split; auto.
  - destruct He as (He & Hty & [H|H]); [contradiction|]. repeat split; auto.
  - destruct He as (He & [H|[H _]] & Hth); [contradiction|]. repeat split; auto.
  - destruct He as (He & Hty & [H|[H _]]); [contradiction|]. repeat split; auto.
Qed.

(** ** Dropdown sections *)

Lemma two_distinct_length {K} (l : list K) (a b : K) :
  In a l -> In b l -> a <> b -> 1 < List.length l.
Proof.
  intros Ha Hb Hab. destruct l as [|x [|y l]]; simpl in *; [contradiction| |lia].
  destruct Ha as [<-|[]]; destruct Hb as [<-|[]]; contradiction.
Qed.

Lemma uniq_section {K} (eq_dec : forall x y : K, {x = y} + {x <> y})
    (iteratee : FrameworkEvent -> K) (events : list FrameworkEvent) :
  1 < List.length (map iteratee (uniqBy eq_dec iteratee events)) <->
  exists e1 e2, In e1 events /\ In e2 events /\ iteratee e1 <> iteratee e2.
Proof.
  destruct (uniqBy_distinct_first_order eq_dec iteratee events) as (Hnd & Hmem & _).
  split.
  - intros Hlen. destruct (map iteratee (uniqBy eq_dec iteratee events)) as [|a [|b r]] eqn:E;
      simpl in Hlen; [lia|lia|].
    assert (Ha : In a (map iteratee events)) by (apply Hmem; left; reflexivity).
    assert (Hb : In b (map iteratee events)) by (apply Hmem; right; left; reflexivity).
    apply in_map_iff in Ha as (e1 & <- & He1). apply in_map_iff in Hb as (e2 & <- & He2).
    exists e1, e2. split; [exact He1|]. split; [exact He2|].
    intros Heq. inversion Hnd as [|? ? Hnotin _]. apply Hnotin. rewrite Heq. left. reflexivity.
  - intros (e1 & e2 & He1 & He2 & Hne). apply (two_distinct_length _ (iteratee e1) (iteratee e2));
      [apply Hmem; apply in_map; exact He1|apply Hmem; apply in_map; exact He2|exact Hne].
Qed.

(** The "By thread" (resp. "By event type") section of the filter dropdown
    is rendered exactly when two of the events have different threads (an
    absent thread counting as a value) (resp. different types). *)
Theorem dropdown_sections_shown (events : list FrameworkEvent) :
  (showThreadSection events = true <->
   exists e1 e2, In e1 events /\ In e2 events /\ thread e1 <> thread e2) /\
  (showEventTypeSection events = true <->
   exists e1 e2, In e1 events /\ In e2 events /\ type e1 <> type e2).
Proof.
  unfold showThreadSection, showEventTypeSection, allThreads, allEventTypes.
  rewrite !Nat.ltb_lt. split; apply uniq_section.
Qed.

(** ** [EventDetails] *)

Lemma In_if_single {X} (b : bool) (x r : X) :
  In r (if b then [x] else []) <-> r = x /\ b = true.
Proof. destruct b; simpl; intuition congruence. Qed.

Lemma In_eventDetailsRows (hasMetadata : bool) (input : EventDetailsInput) (r : DetailsRow) :
  In r (eventDetailsRows hasMetadata input) <->
  r = RowEventType \/ (r = RowDocumentation /\ hasMetadata = true) \/
  r = RowThread \/ r = RowTimestamp \/
  (r = RowDuration /\ durationTruthy (duration input) = true) \/
  (r = RowAttributes /\ exists ks, payloadKeys input = Some ks /\ ks <> []).
Proof.
  unfold eventDetailsRows.
  replace (match payloadKeys input with
           | Some ks => if (0 <? List.length ks)%nat then [RowAttributes] else []
           | None => [] end)
     with (if match payloadKeys input with
              | Some ks => (0 <? List.length ks)%nat | None => false end
           then [RowAttributes] else [])
     by (destruct (payloadKeys input); reflexivity).
  assert (Hk : (match payloadKeys input with
                | Some ks => (0 <? List.length ks)%nat | None => false end = true) <->
               exists ks, payloadKeys input = Some ks /\ ks <> []).
  { destruct (payloadKeys input) as [ks|].
    - rewrite Nat.ltb_lt. split.
      + intros H. exists ks. split; [reflexivity|]. intros ->. simpl in H. lia.
      + intros (ks' & Hks & Hne). injection Hks as <-.
        destruct ks; [contradiction|simpl; lia].
    - split; [discriminate|intros (ks & H & _); discriminate]. }
  revert Hk. generalize (match payloadKeys input with
                         | Some ks => (0 <? List.length ks)%nat | None => false end).
  intros pk Hk. repeat (rewrite in_app_iff || rewrite In_if_single). simpl.
  rewrite Hk. intuition.
Qed.

Lemma durationTruthy_spec (d : option Z) :
  durationTruthy d = true <-> exists z, d = Some z /\ z <> 0%Z.
Proof.
  destruct d as [z|]; simpl.
  - rewrite negb_true_iff, Z.eqb_neq. split.
    + intros H. exists z. split; [reflexivity|exact H].
    + intros (z' & Hz & Hne). injection Hz as <-. exact Hne.
  - split; [discriminate|intros (z & H & _); discriminate].
Qed.

(** The event details always show the type, thread and timestamp rows; the
    documentation row appears exactly when metadata exists, the duration row
    exactly when the duration is defined and non-zero (a zero duration shows
    no row), the attributes row exactly when the payload has a key, and the
    stack trace exactly for a ['stacktrace'] attribution. *)
Theorem eventDetails_rows (hasMetadata : bool) (input : EventDetailsInput) :
  let rows := eventDetailsRows hasMetadata input in
  hd_error rows = Some RowEventType /\ In RowThread rows /\ In RowTimestamp rows /\
  (In RowDocumentation rows <-> hasMetadata = true) /\
  (In RowDuration rows <-> exists d, duration input = Some d /\ d <> 0%Z) /\
  (In RowAttributes rows <-> exists ks, payloadKeys input = Some ks /\ ks <> []) /\
  (showsStackTrace input = true <-> attributionType input = Some "stacktrace").
Proof.
  intros rows. unfold rows. rewrite !In_eventDetailsRows, <- durationTruthy_spec.
  split; [reflexivity|].
  split; [tauto|]. split; [tauto|].
  split; [intuition discriminate|]. split; [intuition discriminate|].
  split; [intuition discriminate|].
  unfold showsStackTrace. destruct (opt_string_dec (attributionType input) (Some "stacktrace"));
    split; congruence.
Qed.

(** ** [PowerSearchEnumTerm]: the select's events *)


Lemma changes_app (o1 o2 : list EnumTerm.Output) :
  EnumTerm.changes (app o1 o2) = app (EnumTerm.changes o1) (EnumTerm.changes o2).
Proof.
  induction o1 as [|[v|] o1 IH]; simpl; [reflexivity| rewrite IH; reflexivity | exact IH].
Qed.

Lemma changes_onBlur (cur : option string) : EnumTerm.changes (EnumTerm.onBlur cur) = [].
Proof. destruct cur as [v|]; simpl; [destruct (String.eqb v "")|]; reflexivity. Qed.



(** Every value picked in the select is handed to [onChange], in order, and
    nothing else is: blurring, Enter and Escape only ever cancel. *)
Theorem enumTerm_changes (cur : option string) (es : list EnumTerm.UIEvent) :
  EnumTerm.changes (snd (EnumTerm.run cur es)) = EnumTerm.selections es.
Proof.
  revert cur. induction es as [|e es IH]; intros cur; [reflexivity|].
  simpl. destruct (EnumTerm.handle cur e) as [c o] eqn:Eh.
  specialize (IH c). destruct (EnumTerm.run c es) as [c' o'] eqn:E. simpl in *.
  rewrite changes_app, IH.
  destruct e as [v| |k]; simpl in Eh.
  - injection Eh as <- <-. reflexivity.
  - injection Eh as <- <-. rewrite changes_onBlur. reflexivity.
  - destruct (String.eqb k "Enter" || String.eqb k "Escape");
      injection Eh as <- <-; [rewrite changes_onBlur|]; reflexivity.
Qed.



(** ** [Object.entries] order *)






(** ** SandyApp: the left sidebar's tracking scope *)

(** The left sidebar is rendered, inside a tracking scope named after the
    top-level selection, exactly when the sidebar is visible and the
    selection is "appinspect" (App Inspect) or "notification"
    (notifications). *)
Theorem sidebarChildren_scope (vis : bool) (sel : option string)
    (scope : string) (content : LeftMenuContent) :
  Sandy.sidebarChildren vis sel = Some (scope, content) <->
  vis = true /\ sel = Some scope /\
  ((scope = "appinspect" /\ content = AppInspect) \/
   (scope = "notification" /\ content = Notification)).
Proof.
  unfold Sandy.sidebarChildren, leftMenuContent.
  destruct vis; simpl; [|split; [discriminate|intros (H & _); discriminate]].
  destruct (opt_string_dec sel (Some "appinspect")) as [->|Ha];
    [|destruct (opt_string_dec sel (Some "notification")) as [->|Hn]].
  - split; [intros H; injection H as <- <-; intuition|].
    intros (_ & Hs & [(-> & ->)|(-> & ->)]); congruence.
  - split; [intros H; injection H as <- <-; intuition|].
    intros (_ & Hs & [(-> & ->)|(-> & ->)]); congruence.
  - split; [discriminate|].
    intros (_ & -> & [(-> & _)|(-> & _)]); contradiction.
Qed.
